(** * autosize.js: window auto-sizing script, shallow embedding

    The script [src/autosize.js] holds two versions of the same pair of
    top-level definitions, [_adjust] and [onload]:
    - Variant A (lines 1-30) measures the body from its computed margins and
      borders, its [scrollWidth] and the root element's bounding-rect height,
      and observes [document.documentElement];
    - Variant B (lines 32-58) forwards twice the root element's offset size
      and observes [document.body].

    JavaScript numbers are modelled as extended rationals with NaN: [NaN],
    [+Infinity], [-Infinity] or a finite rational. [js_add] and [parseFloat]
    compute exactly; [js_add64] and [parseFloat64] round to the nearest
    IEEE 754 binary64 double as the browser does. Variant A's [_adjust] is
    written once over its number operators and instantiated with both. The
    sign of zero is not modelled. *)

From Stdlib Require Import ZArith QArith List String Ascii Bool Lia.
Import ListNotations.
Open Scope Z_scope.

(** ** JavaScript numbers *)

Inductive jsnum : Type :=
| NaN : jsnum
| PosInf : jsnum
| NegInf : jsnum
| Fin : Q -> jsnum.

(** The [+] operator on numbers. *)
Definition js_add (x y : jsnum) : jsnum :=
  match x, y with
  | NaN, _ | _, NaN => NaN
  | PosInf, NegInf | NegInf, PosInf => NaN
  | PosInf, _ | _, PosInf => PosInf
  | NegInf, _ | _, NegInf => NegInf
  | Fin a, Fin b => Fin (a + b)%Q
  end.

Definition js_neg (x : jsnum) : jsnum :=
  match x with
  | NaN => NaN
  | PosInf => NegInf
  | NegInf => PosInf
  | Fin a => Fin (- a)%Q
  end.

(** Infinity times a finite number, by the sign of that number. *)
Definition inf_times (pos : bool) (b : Q) : jsnum :=
  match Qcompare b 0 with
  | Eq => NaN
  | Gt => if pos then PosInf else NegInf
  | Lt => if pos then NegInf else PosInf
  end.

(** The [*] operator on numbers. *)
Definition js_mul (x y : jsnum) : jsnum :=
  match x, y with
  | NaN, _ | _, NaN => NaN
  | PosInf, PosInf | NegInf, NegInf => PosInf
  | PosInf, NegInf | NegInf, PosInf => NegInf
  | PosInf, Fin b | Fin b, PosInf => inf_times true b
  | NegInf, Fin b | Fin b, NegInf => inf_times false b
  | Fin a, Fin b => Fin (a * b)%Q
  end.

(** A DOM [long] (such as [scrollWidth] or [offsetWidth]) read as a number. *)
Definition of_long (z : Z) : jsnum := Fin (inject_Z z).

(** Number literal [2]. *)
Definition two : jsnum := Fin (inject_Z 2).

(** ** The global [parseFloat]

    [parseFloat] skips leading white space and reads the longest prefix
    of the rest that is a StrDecimalLiteral: an optional sign followed by
    [Infinity], or by decimal digits with an optional fraction and an
    optional exponent. Without such a prefix the result is NaN. *)

Definition is_ws (c : ascii) : bool :=
  let n := nat_of_ascii c in
  existsb (Nat.eqb n) [9; 10; 11; 12; 13; 32; 160]%nat.

Fixpoint skip_ws (s : list ascii) : list ascii :=
  match s with
  | c :: r => if is_ws c then skip_ws r else s
  | [] => []
  end.

Definition digit_val (c : ascii) : option Z :=
  let n := nat_of_ascii c in
  if (48 <=? n)%nat && (n <=? 57)%nat then Some (Z.of_nat n - 48) else None.

(** Reads decimal digits: the value read so far [acc], the number of
    digits read [k]; returns both with the rest of the input. *)
Fixpoint read_digits (s : list ascii) (acc : Z) (k : nat)
  : Z * nat * list ascii :=
  match s with
  | c :: r =>
      match digit_val c with
      | Some d => read_digits r (10 * acc + d) (S k)
      | None => (acc, k, s)
      end
  | [] => (acc, k, s)
  end.

Definition infinity_str : list ascii := list_ascii_of_string "Infinity".

Fixpoint is_prefix (p s : list ascii) : bool :=
  match p, s with
  | [], _ => true
  | a :: p', b :: s' => Ascii.eqb a b && is_prefix p' s'
  | _ :: _, [] => false
  end.

(** An optional exponent part [e[+-]digits]; 0 when absent or malformed. *)
Definition read_exponent (s : list ascii) : Z :=
  match s with
  | c :: r =>
      if Ascii.eqb c "e" || Ascii.eqb c "E" then
        let '(sg, r') :=
          match r with
          | d :: r'' => if Ascii.eqb d "+" then (1, r'')
                        else if Ascii.eqb d "-" then (-1, r'')
                        else (1, r)
          | [] => (1, r)
          end in
        let '(e, k, _) := read_digits r' 0 0 in
        if (k =? 0)%nat then 0 else sg * e
      else 0
  | [] => 0
  end.

(** [m * 10^e] as a rational. *)
Definition scale10 (m e : Z) : Q :=
  if 0 <=? e then inject_Z (m * 10 ^ e) else Qmake m (Z.to_pos (10 ^ (- e))).

(** An unsigned decimal literal, or NaN when there is none. *)
Definition parse_unsigned (s : list ascii) : jsnum :=
  if is_prefix infinity_str s then PosInf else
  let '(n, k, r) := read_digits s 0 0 in
  let '(m, f, r') :=
    match r with
    | c :: r1 => if Ascii.eqb c "." then read_digits r1 n 0 else (n, 0%nat, r)
    | [] => (n, 0%nat, r)
    end in
  if (k + f =? 0)%nat then NaN
  else Fin (scale10 m (read_exponent r' - Z.of_nat f)).

Definition parseFloat (str : string) : jsnum :=
  match skip_ws (list_ascii_of_string str) with
  | c :: r =>
      if Ascii.eqb c "+" then parse_unsigned r
      else if Ascii.eqb c "-" then js_neg (parse_unsigned r)
      else parse_unsigned (c :: r)
  | [] => NaN
  end.

Example parseFloat_px : parseFloat "10px" = Fin (10 # 1).
Proof. reflexivity. Qed.
Example parseFloat_border : parseFloat "2px solid rgb(0, 0, 0)" = Fin (2 # 1).
Proof. reflexivity. Qed.
Example parseFloat_frac : parseFloat " -1.25e1px" = Fin (- (125 # 10))%Q.
Proof. reflexivity. Qed.
Example parseFloat_empty : parseFloat "" = NaN.
Proof. reflexivity. Qed.
Example parseFloat_auto : parseFloat "auto" = NaN.
Proof. reflexivity. Qed.

(** ** IEEE 754 binary64 rounding

    The definitions above compute with exact rationals. A JavaScript number
    is a binary64 double: [parseFloat] returns the double nearest to the
    decimal it reads, and [+] the double nearest to the exact sum, ties to
    even, with magnitudes of 2^1024 and more going to an infinity. The
    rounding is written out here; [js_add64] and [parseFloat64] are the
    operators with it. *)

(** [a / d >= 2^k], for [a, d > 0]. *)
Definition ge_pow2 (a d k : Z) : bool :=
  if 0 <=? k then d * 2 ^ k <=? a else d <=? a * 2 ^ (- k).

(** Round half to even of [num / den], for [num >= 0], [den > 0]. *)
Definition round_div (num den : Z) : Z :=
  let q0 := num / den in
  let r := num mod den in
  match Z.compare (2 * r) den with
  | Lt => q0
  | Gt => q0 + 1
  | Eq => if Z.even q0 then q0 else q0 + 1
  end.

(** The double nearest to [q]: the value is [m * 2^e] with the exponent
    [e] chosen so that [2^52 <= m < 2^53] (53 significant bits), but never
    below [-1074] (subnormals). *)
Definition round_binary64 (q : Q) : jsnum :=
  let n := Qnum q in
  let d := Zpos (Qden q) in
  if n =? 0 then Fin (inject_Z 0) else
  let a := Z.abs n in
  let k0 := Z.log2 a - Z.log2 d in
  let k := if ge_pow2 a d k0 then k0 else k0 - 1 in
  let e := Z.max (-1074) (k - 52) in
  let m := if e <? 0 then round_div (a * 2 ^ (- e)) d
           else round_div a (d * 2 ^ e) in
  let sm := if n <? 0 then - m else m in
  if (0 <=? e) && (2 ^ 1024 <=? m * 2 ^ e) then
    (if n <? 0 then NegInf else PosInf)
  else if e <? 0 then Fin (Qred (Qmake sm (Z.to_pos (2 ^ (- e)))))
  else Fin (inject_Z (sm * 2 ^ e)).

(** The [+] operator on doubles. *)
Definition js_add64 (x y : jsnum) : jsnum :=
  match x, y with
  | Fin a, Fin b => round_binary64 (a + b)%Q
  | _, _ => js_add x y
  end.

(** [parseFloat] returning the double nearest to the decimal it reads. *)
Definition parseFloat64 (str : string) : jsnum :=
  match parseFloat str with
  | Fin q => round_binary64 q
  | x => x
  end.

Example parseFloat64_px : parseFloat64 "10px" = Fin (10 # 1).
Proof. reflexivity. Qed.
Example parseFloat64_huge : parseFloat64 "1e400px" = PosInf.
Proof. vm_compute. reflexivity. Qed.
Example parseFloat64_tiny : parseFloat64 "1e-400" = Fin (inject_Z 0).
Proof. vm_compute. reflexivity. Qed.

(** ** The document, as the script reads it *)

(** The computed style of [document.body]: the eight properties the
    script reads, as the strings [getComputedStyle] returns. *)
Record CSSStyleDeclaration := {
  marginTop : string; marginRight : string;
  marginBottom : string; marginLeft : string;
  borderTop : string; borderRight : string;
  borderBottom : string; borderLeft : string }.

(** The geometry of one element: [scrollWidth], [offsetWidth] and
    [offsetHeight] are DOM [long]s, the bounding-rect height a double. *)
Record Element := {
  scrollWidth : Z;
  offsetWidth : Z;
  offsetHeight : Z;
  boundingRectHeight : jsnum }.

Record Document := {
  body : Element;
  documentElement : Element;
  bodyStyle : CSSStyleDeclaration }.

(** The node a [ResizeObserver] observes. *)
Inductive Target := BodyNode | DocumentElementNode.

(** The global state: the document, the observers installed so far (by
    the node each observes), whether [load] has fired, and the calls made
    to [_rpc_adjustWindowToContent] so far, oldest first. *)
Record World := {
  document : Document;
  observers : list Target;
  loaded : bool;
  rpc_calls : list (jsnum * jsnum) }.

(** ** A state monad over the global state *)

Definition M (A : Type) : Type := World -> A * World.

Definition ret {A} (a : A) : M A := fun w => (a, w).

Definition bind {A B} (m : M A) (k : A -> M B) : M B :=
  fun w => let '(a, w') := m w in k a w'.

Notation "x <- m ;; k" := (bind m (fun x => k))
  (at level 61, m at next level, right associativity).
Notation "m ;;; k" := (bind m (fun _ => k))
  (at level 61, right associativity).

Definition exec {A} (m : M A) (w : World) : World := snd (m w).

(** DOM reads. *)
Definition getComputedStyle_body : M CSSStyleDeclaration :=
  fun w => (bodyStyle (document w), w).
Definition get_body : M Element := fun w => (body (document w), w).
Definition get_documentElement : M Element :=
  fun w => (documentElement (document w), w).

(** The host's resize operation: the script only records the call. *)
Definition _rpc_adjustWindowToContent (width height : jsnum) : M unit :=
  fun w => (tt, {| document := document w; observers := observers w;
                   loaded := loaded w;
                   rpc_calls := rpc_calls w ++ [(width, height)] |}).

(** [new ResizeObserver(cb).observe(node)]: installs an observer of
    [node]; its callback is the one of the running variant. *)
Definition resizeObserver_observe (node : Target) : M unit :=
  fun w => (tt, {| document := document w; observers := observers w ++ [node];
                   loaded := loaded w; rpc_calls := rpc_calls w |}).

(** [map(parseFloat)] over a four-element array, destructured. *)
Definition parse4 (parse : string -> jsnum) (a b c d : string)
  : jsnum * jsnum * jsnum * jsnum :=
  (parse a, parse b, parse c, parse d).

(** ** Variant A: lines 1-30 *)
Module VariantA.

(** [_adjust] over the number operators [plus] (for [+]) and [parse] (for
    [parseFloat]). *)
Definition _adjust_in (plus : jsnum -> jsnum -> jsnum) (parse : string -> jsnum)
  : M unit :=
  s <- getComputedStyle_body ;;
  let '(mt, mr, mb, ml) :=
    parse4 parse (marginTop s) (marginRight s) (marginBottom s) (marginLeft s) in
  let '(bt, br, bb, bl) :=
    parse4 parse (borderTop s) (borderRight s) (borderBottom s) (borderLeft s) in
  b <- get_body ;;
  let width := plus (plus (plus (plus ml bl) (of_long (scrollWidth b))) br) mr in
  de <- get_documentElement ;;
  let height := boundingRectHeight de in
  _rpc_adjustWindowToContent width height.

(** With exact rational arithmetic. *)
Definition _adjust : M unit := _adjust_in js_add parseFloat.

(** With binary64 arithmetic, as the browser computes. *)
Definition _adjust_binary64 : M unit := _adjust_in js_add64 parseFloat64.

Definition onload : M unit := resizeObserver_observe DocumentElementNode.

End VariantA.

(** ** Variant B: lines 32-58 *)
Module VariantB.

Definition _adjust : M unit :=
  de <- get_documentElement ;;
  let width := of_long (offsetWidth de) in
  de' <- get_documentElement ;;
  let height := of_long (offsetHeight de') in
  _rpc_adjustWindowToContent (js_mul width two) (js_mul height two).

Definition onload : M unit := resizeObserver_observe BodyNode.

End VariantB.

(** ** The page's life cycle

    A variant is the pair of globals it installs. The environment delivers
    three kinds of events: [Load] runs the [onload] handler (once); [Notify i]
    runs the callback [entries => _adjust()] of the [i]-th observer installed,
    which needs that observer to exist; [Relayout d] is a re-rendering of the
    page into the document [d]. *)

Inductive variant := A | B.

Definition _adjust (v : variant) : M unit :=
  match v with A => VariantA._adjust | B => VariantB._adjust end.

Definition onload (v : variant) : M unit :=
  match v with A => VariantA.onload | B => VariantB.onload end.

Inductive Event :=
| Load : Event
| Notify : nat -> Event
| Relayout : Document -> Event.

Definition set_loaded (w : World) : World :=
  {| document := document w; observers := observers w;
     loaded := true; rpc_calls := rpc_calls w |}.

Definition set_document (d : Document) (w : World) : World :=
  {| document := d; observers := observers w;
     loaded := loaded w; rpc_calls := rpc_calls w |}.

Definition step (v : variant) (w : World) (ev : Event) : option World :=
  match ev with
  | Load => if loaded w then None else Some (exec (onload v) (set_loaded w))
  | Notify i =>
      match nth_error (observers w) i with
      | Some _ => Some (exec (_adjust v) w)
      | None => None
      end
  | Relayout d => Some (set_document d w)
  end.

Fixpoint run (v : variant) (w : World) (evs : list Event) : option World :=
  match evs with
  | [] => Some w
  | ev :: evs' =>
      match step v w ev with
      | Some w' => run v w' evs'
      | None => None
      end
  end.

(** The page before the script's [load] event. *)
Definition init (d : Document) : World :=
  {| document := d; observers := []; loaded := false; rpc_calls := [] |}.

Definition is_notify (ev : Event) : bool :=
  match ev with Notify _ => true | _ => false end.

Definition count_notify (evs : list Event) : nat :=
  List.length (filter is_notify evs).

(** ** Dimensions: a non-negative number, neither NaN nor infinite *)



(** ** Concrete documents *)

Definition style_of (mt mr mb ml bt br bb bl : string) : CSSStyleDeclaration :=
  {| marginTop := mt; marginRight := mr; marginBottom := mb; marginLeft := ml;
     borderTop := bt; borderRight := br; borderBottom := bb; borderLeft := bl |}.

Definition elem (sw ow oh : Z) (h : jsnum) : Element :=
  {| scrollWidth := sw; offsetWidth := ow; offsetHeight := oh;
     boundingRectHeight := h |}.

(** Body with 10px side margins and 2px side borders, 300px of content. *)
Definition doc_spec_A : Document :=
  {| body := elem 300 304 180 (Fin (184 # 1));
     documentElement := elem 324 324 200 (Fin (200 # 1));
     bodyStyle := style_of "8px" "10px" "8px" "10px"
                    "2px solid rgb(0, 0, 0)" "2px solid rgb(0, 0, 0)"
                    "2px solid rgb(0, 0, 0)" "2px solid rgb(0, 0, 0)" |}.

(** Root element of 400 by 200 pixels. *)
Definition doc_spec_B : Document :=
  {| body := elem 384 384 184 (Fin (184 # 1));
     documentElement := elem 400 400 200 (Fin (200 # 1));
     bodyStyle := style_of "8px" "8px" "8px" "8px"
                    "0px none rgb(0, 0, 0)" "0px none rgb(0, 0, 0)"
                    "0px none rgb(0, 0, 0)" "0px none rgb(0, 0, 0)" |}.

(** A body pulled left by a negative margin. *)
Definition doc_neg_margin : Document :=
  {| body := elem 10 10 100 (Fin (100 # 1));
     documentElement := elem 10 10 100 (Fin (100 # 1));
     bodyStyle := style_of "0px" "0px" "0px" "-50px"
                    "0px none rgb(0, 0, 0)" "0px none rgb(0, 0, 0)"
                    "0px none rgb(0, 0, 0)" "0px none rgb(0, 0, 0)" |}.

(** A body whose top margin and left border do not parse as numbers. *)
Definition doc_bad_top : Document :=
  {| body := elem 300 300 100 (Fin (100 # 1));
     documentElement := elem 300 300 100 (Fin (100 # 1));
     bodyStyle := style_of "" "0px" "0px" "0px"
                    "0px none rgb(0, 0, 0)" "0px none rgb(0, 0, 0)"
                    "0px none rgb(0, 0, 0)" "0px none rgb(0, 0, 0)" |}.

Definition doc_bad_left : Document :=
  {| body := elem 300 300 100 (Fin (100 # 1));
     documentElement := elem 300 300 100 (Fin (100 # 1));
     bodyStyle := style_of "0px" "0px" "0px" "0px"
                    "0px none rgb(0, 0, 0)" "0px none rgb(0, 0, 0)"
                    "0px none rgb(0, 0, 0)" "none" |}.

(** A body with 10.4px side margins, as [0.65em] computes at 16px. *)
Definition doc_frac : Document :=
  {| body := elem 300 300 100 (Fin (100 # 1));
     documentElement := elem 321 321 100 (Fin (100 # 1));
     bodyStyle := style_of "0px" "10.4px" "0px" "10.4px"
                    "0px none rgb(0, 0, 0)" "0px none rgb(0, 0, 0)"
                    "0px none rgb(0, 0, 0)" "0px none rgb(0, 0, 0)" |}.

Example run_A_spec :
  run A (init doc_spec_A) [Load; Notify 0] =
  Some {| document := doc_spec_A; observers := [DocumentElementNode];
          loaded := true; rpc_calls := [(Fin (324 # 1), Fin (200 # 1))] |}.
Proof. reflexivity. Qed.

Example run_B_spec :
  run B (init doc_spec_B) [Load; Notify 0] =
  Some {| document := doc_spec_B; observers := [BodyNode];
          loaded := true; rpc_calls := [(Fin (800 # 1), Fin (400 # 1))] |}.
Proof. reflexivity. Qed.

(** ** The whole script

    The file is one classic script with four top-level statements: two
    declarations of [function _adjust] and two assignments [onload = ...].
    Function declarations are instantiated before any statement runs, in
    source order, so the later one binds [_adjust]; the assignments then run
    in order. The observer callback [entries => _adjust()] and the [load]
    event look the globals up when they run. *)

Inductive Stmt :=
| FunctionDeclaration : string -> M unit -> Stmt
| AssignGlobal : string -> M unit -> Stmt.

(** Global bindings, the most recent first. *)
Definition Globals := list (string * M unit).

Definition set_global (name : string) (f : M unit) (g : Globals) : Globals :=
  (name, f) :: g.

Fixpoint lookup_global (name : string) (g : Globals) : option (M unit) :=
  match g with
  | [] => None
  | (n, f) :: g' => if String.eqb n name then Some f else lookup_global name g'
  end.

(** Declaration instantiation: the function declarations, in order. *)
Definition hoist (ss : list Stmt) (g : Globals) : Globals :=
  fold_left (fun g s => match s with
                        | FunctionDeclaration n f => set_global n f g
                        | AssignGlobal _ _ => g
                        end) ss g.

(** Evaluation: the assignments, in order. *)
Definition exec_stmts (ss : list Stmt) (g : Globals) : Globals :=
  fold_left (fun g s => match s with
                        | FunctionDeclaration _ _ => g
                        | AssignGlobal n f => set_global n f g
                        end) ss g.

Definition load_script (ss : list Stmt) : Globals := exec_stmts ss (hoist ss []).

(** [src/autosize.js], statement by statement. *)
Definition autosize_js : list Stmt :=
  [FunctionDeclaration "_adjust" VariantA._adjust;
   AssignGlobal "onload" VariantA.onload;
   FunctionDeclaration "_adjust" VariantB._adjust;
   AssignGlobal "onload" VariantB.onload].

(** The page life cycle under the globals [g]: [load] calls the global
    [onload] if one is set; an observer callback calls the global [_adjust],
    and fails (a ReferenceError) when there is none. *)
Definition step_script (g : Globals) (w : World) (ev : Event) : option World :=
  match ev with
  | Load =>
      if loaded w then None
      else match lookup_global "onload" g with
           | Some h => Some (exec h (set_loaded w))
           | None => Some (set_loaded w)
           end
  | Notify i =>
      match nth_error (observers w) i with
      | Some _ =>
          match lookup_global "_adjust" g with
          | Some f => Some (exec f w)
          | None => None
          end
      | None => None
      end
  | Relayout d => Some (set_document d w)
  end.

Fixpoint run_script (g : Globals) (w : World) (evs : list Event) : option World :=
  match evs with
  | [] => Some w
  | ev :: evs' =>
      match step_script g w ev with
      | Some w' => run_script g w' evs'
      | None => None
      end
  end.

(** The node each variant's [onload] observes. *)
Definition observed_node (v : variant) : Target :=
  match v with A => DocumentElementNode | B => BodyNode end.

(** ** Shared lemmas *)

Ltac unfold_adjust :=
  cbv beta iota delta [exec bind ret _adjust VariantA._adjust VariantB._adjust
    VariantA._adjust_in VariantA._adjust_binary64
    getComputedStyle_body get_body get_documentElement
    _rpc_adjustWindowToContent parse4 fst snd].

(** One run of [_adjust] keeps the document, the observers and the [load]
    flag, and appends exactly one call to the host's resize operation. *)
Lemma adjust_frame (v : variant) (w : World) :
  exists p, exec (_adjust v) w =
    {| document := document w; observers := observers w; loaded := loaded w;
       rpc_calls := rpc_calls w ++ [p] |}.
Proof. destruct v; unfold_adjust; eexists; reflexivity. Qed.

Lemma adjust_calls (v : variant) (w : World) :
  List.length (rpc_calls (exec (_adjust v) w)) = S (List.length (rpc_calls w)).
Proof.
  destruct (adjust_frame v w) as [p ->]; cbn.
  rewrite length_app; cbn; lia.
Qed.

Lemma adjust_document (v : variant) (w : World) :
  document (exec (_adjust v) w) = document w /\
  observers (exec (_adjust v) w) = observers w /\
  loaded (exec (_adjust v) w) = loaded w.
Proof. destruct (adjust_frame v w) as [p ->]; auto. Qed.

(** The pair [_adjust] forwards depends on the document only. *)
Lemma adjust_pair_document (v : variant) (w : World) :
  exec (_adjust v) w =
    {| document := document w; observers := observers w; loaded := loaded w;
       rpc_calls := rpc_calls w ++ rpc_calls (exec (_adjust v) (init (document w))) |}.
Proof. destruct v; unfold_adjust; reflexivity. Qed.

Lemma js_mul_two (z : Z) : js_mul (of_long z) two = of_long (2 * z).
Proof.
  unfold js_mul, of_long, two, inject_Z, Qmult; cbn.
  now rewrite Z.mul_comm.
Qed.

Lemma onload_frame (v : variant) (w : World) :
  document (exec (onload v) w) = document w /\
  loaded (exec (onload v) w) = loaded w /\
  rpc_calls (exec (onload v) w) = rpc_calls w.
Proof. destruct v; repeat split. Qed.

(** Along any trace, the calls grow by one per notification delivered. *)
Lemma run_calls (v : variant) (evs : list Event) :
  forall w w', run v w evs = Some w' ->
  (List.length (rpc_calls w') = List.length (rpc_calls w) + count_notify evs)%nat.
Proof.
  induction evs as [|ev evs IH]; intros w w' Hrun; cbn in Hrun.
  - injection Hrun as <-; unfold count_notify; cbn; lia.
  - destruct ev as [|i|d]; cbn in Hrun; unfold count_notify in *; cbn.
    + destruct (loaded w); [discriminate|].
      apply IH in Hrun. destruct (onload_frame v (set_loaded w)) as (_ & _ & Hc).
      rewrite Hrun, Hc; reflexivity.
    + destruct (nth_error (observers w) i); [|discriminate].
      apply IH in Hrun. rewrite Hrun, adjust_calls; lia.
    + apply IH in Hrun. rewrite Hrun; reflexivity.
Qed.

(** Before [load], no observer exists, so no notification can be
    delivered and no call is made. *)
Lemma run_before_load (v : variant) (evs : list Event) :
  forall w w', loaded w = false -> observers w = [] -> ~ In Load evs ->
  run v w evs = Some w' ->
  observers w' = [] /\ rpc_calls w' = rpc_calls w.
Proof.
  induction evs as [|ev evs IH]; intros w w' Hl Ho Hin Hrun; cbn in Hrun.
  - injection Hrun as <-; auto.
  - destruct ev as [|i|d].
    + exfalso; apply Hin; left; reflexivity.
    + cbn in Hrun; rewrite Ho, nth_error_nil in Hrun; discriminate.
    + cbn in Hrun. apply IH in Hrun; cbn; auto.
      intros H; apply Hin; right; exact H.
Qed.

Lemma js_add_nan_l (x : jsnum) : js_add NaN x = NaN.
Proof. reflexivity. Qed.

Lemma js_add_nan_r (x : jsnum) : js_add x NaN = NaN.
Proof. destruct x; reflexivity. Qed.



Lemma Qred_inject_Z (z : Z) : Qred (inject_Z z) = inject_Z z.
Proof.
  unfold Qred, inject_Z; cbn [Qnum Qden].
  pose proof (Z.ggcd_gcd z 1) as Hg.
  pose proof (Z.ggcd_correct_divisors z 1) as Hd.
  destruct (Z.ggcd z 1) as [g [aa bb]]; cbn in *.
  rewrite Z.gcd_1_r in Hg. subst g.
  destruct Hd as [H1 H2]. rewrite Z.mul_1_l in H1, H2. subst. reflexivity.
Qed.

Lemma round_div_1 (x : Z) : round_div x 1 = x.
Proof. unfold round_div. rewrite Z.div_1_r, Z.mod_1_r. reflexivity. Qed.

(** An integer of magnitude below 2^53 is a double. *)
Lemma round_binary64_int (z : Z) :
  Z.abs z < 2 ^ 53 -> round_binary64 (inject_Z z) = Fin (inject_Z z).
Proof.
  intros Hz. cbv [round_binary64 Qnum Qden inject_Z].
  destruct (Z.eqb_spec z 0) as [->|Hz0]; [reflexivity|].
  assert (Ha : 0 < Z.abs z) by lia.
  set (a := Z.abs z) in *.
  change (Z.log2 (Zpos 1)) with 0. rewrite Z.sub_0_r.
  set (la := Z.log2 a).
  assert (Hla0 : 0 <= la) by apply Z.log2_nonneg.
  assert (Hla : 2 ^ la <= a) by (apply Z.log2_spec; exact Ha).
  assert (Hla53 : la < 53) by (apply Z.log2_lt_pow2; assumption).
  assert (Hge : ge_pow2 a 1 la = true).
  { unfold ge_pow2. rewrite (proj2 (Z.leb_le 0 la) Hla0).
    apply Z.leb_le; lia. }
  rewrite Hge.
  replace (Z.max (-1074) (la - 52)) with (la - 52) by lia.
  assert (Hsm : forall m, (if z <? 0 then - (a * m) else a * m) = z * m).
  { intros m. unfold a. destruct (Z.ltb_spec z 0).
    - rewrite Z.abs_neq by lia. ring.
    - rewrite Z.abs_eq by lia. reflexivity. }
  destruct (Z.ltb_spec (la - 52) 0) as [Hlt|Hge52].
  - rewrite round_div_1, Hsm.
    destruct (Z.leb_spec 0 (la - 52)) as [H|_]; [lia|]. cbn [andb].
    f_equal.
    assert (Hp : 0 < 2 ^ (- (la - 52))) by (apply Z.pow_pos_nonneg; lia).
    rewrite (Qred_complete _ (inject_Z z)).
    + apply Qred_inject_Z.
    + unfold Qeq; cbn [Qnum Qden inject_Z].
      rewrite Z2Pos.id by exact Hp. ring.
  - assert (He : la - 52 = 0) by lia. rewrite He.
    change (1 * 2 ^ 0) with 1. rewrite round_div_1.
    change (2 ^ 0) with 1. rewrite Z.mul_1_r.
    destruct (Z.leb_spec (2 ^ 1024) a) as [H|_].
    + exfalso. assert (2 ^ 53 <= 2 ^ 1024) by (apply Z.pow_le_mono_r; lia). lia.
    + rewrite Bool.andb_false_r. f_equal. unfold inject_Z. f_equal.
      pose proof (Hsm 1) as H1. rewrite !Z.mul_1_r in *. exact H1.
Qed.

Lemma js_add64_int (x y : Z) :
  Z.abs (x + y) < 2 ^ 53 ->
  js_add64 (Fin (inject_Z x)) (Fin (inject_Z y)) = Fin (inject_Z (x + y)).
Proof.
  intros H. unfold js_add64.
  replace (inject_Z x + inject_Z y)%Q with (inject_Z (x + y)).
  - apply round_binary64_int; exact H.
  - unfold Qplus, inject_Z; cbn [Qnum Qden]. f_equal; ring.
Qed.

(** ** Claims *)

(** C1 (counterexample): with binary64 arithmetic, side margins of 10.4px,
    no borders and a scroll width of 300, Variant A forwards the width
    320.79999999999995452526491135358810424804688 (the double nearest to
    [((((10.4 + 0) + 300) + 0) + 10.4)] computed step by step), which is
    not the exact sum of the five parsed components. *)
Lemma variantA_width_rounded :
  parseFloat64 (marginLeft (bodyStyle doc_frac)) =
    Fin (5854679515581645 # 562949953421312) /\
  parseFloat64 (marginRight (bodyStyle doc_frac)) =
    Fin (5854679515581645 # 562949953421312) /\
  parseFloat64 (borderLeft (bodyStyle doc_frac)) = Fin (inject_Z 0) /\
  parseFloat64 (borderRight (bodyStyle doc_frac)) = Fin (inject_Z 0) /\
  scrollWidth (body doc_frac) = 300 /\
  rpc_calls (exec VariantA._adjust_binary64 (init doc_frac)) =
    [(Fin (1410893320762163 # 4398046511104), Fin (100 # 1))] /\
  ~ Qeq (1410893320762163 # 4398046511104)
        ((5854679515581645 # 562949953421312) + inject_Z 0 + inject_Z 300 +
         inject_Z 0 + (5854679515581645 # 562949953421312))%Q.
Proof.
  do 5 (split; [vm_compute; reflexivity|]).
  split; [vm_compute; reflexivity|].
  unfold Qeq; vm_compute; discriminate.
Qed.

(** C1 (amended): Variant A adds the parsed components with binary64
    addition, left to right. When the left and right margins and borders
    parse to non-negative integers and the total with the non-negative
    [scrollWidth] stays below 2^53, no addition rounds: the width forwarded
    is exactly [ml + bl + scrollWidth + br + mr], and the height exactly the
    root element's bounding-rect height. *)
Theorem variantA_adjust_binary64 (w : World) (ml bl br mr : Z)
  (Hml : parseFloat64 (marginLeft (bodyStyle (document w))) = Fin (inject_Z ml))
  (Hbl : parseFloat64 (borderLeft (bodyStyle (document w))) = Fin (inject_Z bl))
  (Hbr : parseFloat64 (borderRight (bodyStyle (document w))) = Fin (inject_Z br))
  (Hmr : parseFloat64 (marginRight (bodyStyle (document w))) = Fin (inject_Z mr))
  (Hml0 : 0 <= ml) (Hbl0 : 0 <= bl) (Hbr0 : 0 <= br) (Hmr0 : 0 <= mr)
  (Hsw : 0 <= scrollWidth (body (document w)))
  (Hbound : ml + bl + scrollWidth (body (document w)) + br + mr < 2 ^ 53) :
  rpc_calls (exec VariantA._adjust_binary64 w) =
    rpc_calls w ++
      [(Fin (inject_Z (ml + bl + scrollWidth (body (document w)) + br + mr)),
        boundingRectHeight (documentElement (document w)))].
Proof.
  unfold_adjust; cbn [rpc_calls].
  rewrite Hml, Hbl, Hbr, Hmr. unfold of_long.
  rewrite !js_add64_int by lia.
  reflexivity.
Qed.

(** Witness of C1: the spec's scenario, margins 10, borders 2, scroll width
    300, gives the width 324. *)
Lemma variantA_adjust_binary64_witness :
  rpc_calls (exec VariantA._adjust_binary64 (init doc_spec_A)) =
    [(Fin (inject_Z 324), Fin (200 # 1))].
Proof.
  rewrite (variantA_adjust_binary64 (init doc_spec_A) 10 2 2 10);
    try reflexivity; try lia.
  cbn; lia.
Defined.

(** C2: Variant B forwards exactly twice the root element's [offsetWidth]
    and [offsetHeight], width first; for 400 by 200 it forwards (800, 400). *)
Theorem variantB_adjust_double :
  (forall w : World,
     rpc_calls (exec VariantB._adjust w) =
       rpc_calls w ++
         [(of_long (2 * offsetWidth (documentElement (document w))),
           of_long (2 * offsetHeight (documentElement (document w))))]) /\
  rpc_calls (exec VariantB._adjust (init doc_spec_B)) =
    [(Fin (800 # 1), Fin (400 # 1))].
Proof.
  split.
  - intros w; unfold_adjust; cbn [rpc_calls].
    now rewrite !js_mul_two.
  - reflexivity.
Qed.

(** C3: the two variants disagree: on the page [doc_spec_A] (a 300px body
    with 10px margins and 2px borders in a 324 by 200 root element)
    Variant A forwards (324, 200) and Variant B (648, 400). *)
Theorem variants_disagree :
  exists d : Document,
    rpc_calls (exec VariantA._adjust (init d)) <>
    rpc_calls (exec VariantB._adjust (init d)).
Proof.
  exists doc_spec_A; vm_compute; congruence.
Qed.

(** C4 (counterexample): the [load] event alone makes no forwarding call in
    either variant: the [onload] handler only installs the observer. *)
Lemma load_makes_no_call :
  option_map rpc_calls (run A (init doc_spec_A) [Load]) = Some [] /\
  option_map rpc_calls (run B (init doc_spec_B) [Load]) = Some [].
Proof. split; reflexivity. Qed.

(** C4 (amended): in every trace of either variant from the page before
    [load], the number of forwarding calls equals the number of observer
    notifications delivered: one call per notification, none for [load]. *)
Theorem calls_per_notification (v : variant) (d : Document)
  (evs : list Event) (w' : World)
  (Hrun : run v (init d) evs = Some w') :
  List.length (rpc_calls w') = count_notify evs.
Proof. apply run_calls in Hrun; exact Hrun. Qed.

Lemma calls_per_notification_witness :
  exists w', run A (init doc_spec_A) [Load; Notify 0; Relayout doc_spec_B; Notify 0] = Some w' /\
  List.length (rpc_calls w') = 2%nat.
Proof.
  eexists; split; [reflexivity|].
  exact (calls_per_notification A doc_spec_A
           [Load; Notify 0; Relayout doc_spec_B; Notify 0] _ eq_refl).
Defined.

(** C5: in either variant, a trace without the [load] event makes no
    forwarding call. *)
Theorem no_call_before_load (v : variant) (d : Document)
  (evs : list Event) (w' : World)
  (Hno : ~ In Load evs)
  (Hrun : run v (init d) evs = Some w') :
  rpc_calls w' = [].
Proof. apply run_before_load in Hrun; cbn; tauto. Qed.

Lemma no_call_before_load_witness :
  exists w', ~ In Load [Relayout doc_spec_B; Relayout doc_spec_A] /\
  run B (init doc_spec_A) [Relayout doc_spec_B; Relayout doc_spec_A] = Some w' /\
  rpc_calls w' = [].
Proof.
  assert (Hno : ~ In Load [Relayout doc_spec_B; Relayout doc_spec_A])
    by (cbn; intros [H|[H|[]]]; discriminate).
  eexists; split; [exact Hno|split; [reflexivity|]].
  exact (no_call_before_load B doc_spec_A _ _ Hno eq_refl).
Defined.




(** The page [w] with other top and bottom margins and borders on the body. *)
Definition restyle_top_bottom (w : World) (mt mb bt bb : string) : World :=
  let s := bodyStyle (document w) in
  {| document :=
       {| body := body (document w);
          documentElement := documentElement (document w);
          bodyStyle := style_of mt (marginRight s) mb (marginLeft s)
                                bt (borderRight s) bb (borderLeft s) |};
     observers := observers w; loaded := loaded w; rpc_calls := rpc_calls w |}.

(** C7 (counterexample): a top margin that does not parse leaves Variant A's
    width a number. *)
Lemma nan_top_margin_unused :
  parseFloat (marginTop (bodyStyle doc_bad_top)) = NaN /\
  rpc_calls (exec VariantA._adjust (init doc_bad_top)) =
    [(Fin (300 # 1), Fin (100 # 1))].
Proof. split; reflexivity. Qed.

(** C7 (amended): in Variant A, when the left or right margin or border does
    not parse, the call is still made and forwards the width NaN; the top
    and bottom margins and borders are parsed but unused, so they never
    change the forwarded pair. *)
Theorem nan_flows_into_width :
  (forall w : World,
     parseFloat (marginLeft (bodyStyle (document w))) = NaN \/
     parseFloat (borderLeft (bodyStyle (document w))) = NaN \/
     parseFloat (borderRight (bodyStyle (document w))) = NaN \/
     parseFloat (marginRight (bodyStyle (document w))) = NaN ->
     rpc_calls (exec VariantA._adjust w) =
       rpc_calls w ++ [(NaN, boundingRectHeight (documentElement (document w)))]) /\
  (forall (w : World) (mt mb bt bb : string),
     rpc_calls (exec VariantA._adjust (restyle_top_bottom w mt mb bt bb)) =
     rpc_calls (exec VariantA._adjust w)).
Proof.
  split.
  - intros w Hnan. unfold_adjust; cbn [rpc_calls].
    destruct Hnan as [H|[H|[H|H]]]; rewrite H;
      repeat rewrite ?js_add_nan_l, ?js_add_nan_r; reflexivity.
  - intros w mt mb bt bb. unfold_adjust; reflexivity.
Qed.

Lemma nan_flows_into_width_witness :
  parseFloat (borderLeft (bodyStyle doc_bad_left)) = NaN /\
  rpc_calls (exec VariantA._adjust (init doc_bad_left)) = [] ++ [(NaN, Fin (100 # 1))].
Proof.
  split; [reflexivity|].
  apply (proj1 nan_flows_into_width (init doc_bad_left)).
  right; left; reflexivity.
Defined.

(** C8 (counterexample): Variant B's [onload] observes the body, not the
    root element. *)
Lemma variantB_observes_body :
  observers (exec VariantB.onload (init doc_spec_B)) = [BodyNode] /\
  observers (exec VariantB.onload (init doc_spec_B)) <> [DocumentElementNode].
Proof. split; [reflexivity|cbn; congruence]. Qed.

(** C8 (amended): Variant A's [onload] installs one observer of the root
    element, Variant B's one observer of the body. *)
Theorem onload_observed_node (w : World) :
  observers (exec (onload A) w) = observers w ++ [DocumentElementNode] /\
  observers (exec (onload B) w) = observers w ++ [BodyNode].
Proof. split; reflexivity. Qed.

(** C9: in both variants one run of [_adjust] leaves the document, the
    observers and the [load] flag as they were and appends exactly one
    call to the host's resize operation. *)
Theorem adjust_only_forwards (v : variant) (w : World) :
  exists p, exec (_adjust v) w =
    {| document := document w; observers := observers w; loaded := loaded w;
       rpc_calls := rpc_calls w ++ [p] |}.
Proof. destruct v; unfold_adjust; eexists; reflexivity. Qed.

(** C10: in both variants two runs of [_adjust] on pages with the same
    document forward the same pair. *)
Theorem adjust_deterministic (v : variant) (w1 w2 : World)
  (Hdoc : document w1 = document w2) :
  exists p, rpc_calls (exec (_adjust v) w1) = rpc_calls w1 ++ [p] /\
            rpc_calls (exec (_adjust v) w2) = rpc_calls w2 ++ [p].
Proof.
  destruct (adjust_frame v (init (document w1))) as [p Hp].
  exists p.
  rewrite (adjust_pair_document v w1), (adjust_pair_document v w2), <- Hdoc, Hp.
  split; reflexivity.
Qed.

Lemma adjust_deterministic_witness :
  exists p,
    rpc_calls (exec (_adjust B) (init doc_spec_B)) = [] ++ [p] /\
    rpc_calls (exec (_adjust B) (exec (_adjust B) (init doc_spec_B))) =
      rpc_calls (exec (_adjust B) (init doc_spec_B)) ++ [p].
Proof.
  apply (adjust_deterministic B (init doc_spec_B) (exec (_adjust B) (init doc_spec_B))).
  reflexivity.
Defined.

(** ** Further properties of the code *)

Lemma step_script_autosize (w : World) (ev : Event) :
  step_script (load_script autosize_js) w ev = step B w ev.
Proof. destruct ev; reflexivity. Qed.

Lemma run_script_autosize (w : World) (evs : list Event) :
  run_script (load_script autosize_js) w evs = run B w evs.
Proof.
  revert w; induction evs as [|ev evs IH]; intros w; [reflexivity|].
  cbn [run_script run]; rewrite step_script_autosize.
  destruct (step B w ev); [apply IH|reflexivity].
Qed.

(** A property of every pair a variant's [_adjust] forwards holds of every
    call made along a trace. *)
Lemma run_calls_forall (v : variant) (P : jsnum * jsnum -> Prop)
  (HP : forall w, exists p, P p /\ rpc_calls (exec (_adjust v) w) = rpc_calls w ++ [p])
  (evs : list Event) :
  forall w w', Forall P (rpc_calls w) -> run v w evs = Some w' ->
  Forall P (rpc_calls w').
Proof.
  induction evs as [|ev evs IH]; intros w w' Hw Hrun; cbn in Hrun.
  - injection Hrun as <-; exact Hw.
  - destruct ev as [|i|d]; cbn in Hrun.
    + destruct (loaded w); [discriminate|].
      refine (IH _ _ _ Hrun).
      destruct (onload_frame v (set_loaded w)) as (_ & _ & ->); exact Hw.
    + destruct (nth_error (observers w) i); [|discriminate].
      refine (IH _ _ _ Hrun).
      destruct (HP w) as [p [Hp ->]].
      apply Forall_app; split; [exact Hw|constructor; [exact Hp|constructor]].
    + exact (IH (set_document d w) w' Hw Hrun).
Qed.

Lemma run_observers (v : variant) (evs : list Event) :
  forall w w', observers w = (if loaded w then [observed_node v] else []) ->
  run v w evs = Some w' ->
  observers w' = (if loaded w' then [observed_node v] else []).
Proof.
  induction evs as [|ev evs IH]; intros w w' Hw Hrun; cbn in Hrun.
  - injection Hrun as <-; exact Hw.
  - destruct ev as [|i|d]; cbn in Hrun.
    + destruct (loaded w) eqn:Hl; [discriminate|].
      refine (IH _ _ _ Hrun).
      destruct v; cbn; rewrite Hw; reflexivity.
    + destruct (nth_error (observers w) i); [|discriminate].
      refine (IH _ _ _ Hrun).
      destruct (adjust_document v w) as (_ & -> & ->); exact Hw.
    + exact (IH (set_document d w) w' Hw Hrun).
Qed.

(** X1: loading the whole file leaves the second [_adjust] (Variant B)
    and the second [onload] handler (Variant B) bound: the later function
    declaration and the later assignment override the earlier ones. *)
Theorem autosize_js_globals :
  lookup_global "_adjust" (load_script autosize_js) = Some VariantB._adjust /\
  lookup_global "onload" (load_script autosize_js) = Some VariantB.onload.
Proof. split; reflexivity. Qed.

(** X2: on every page and every sequence of events, the whole file
    behaves as Variant B alone. *)
Theorem autosize_js_is_variantB (w : World) (evs : list Event) :
  run_script (load_script autosize_js) w evs = run B w evs.
Proof.
  revert w; induction evs as [|ev evs IH]; intros w; [reflexivity|].
  cbn [run_script run]; rewrite step_script_autosize.
  destruct (step B w ev); [apply IH|reflexivity].
Qed.

(** X3: after any trace of the whole file from the page before [load],
    the only observer installed (if any) is on [document.body], and every
    call forwarded twice two integers: never NaN, never infinite, never the
    Variant A measurement. *)
Theorem autosize_js_trace (d : Document) (evs : list Event) (w' : World)
  (Hrun : run_script (load_script autosize_js) (init d) evs = Some w') :
  observers w' = (if loaded w' then [BodyNode] else []) /\
  Forall (fun p => exists a b : Z, p = (of_long (2 * a), of_long (2 * b)))
         (rpc_calls w').
Proof.
  rewrite run_script_autosize in Hrun. split.
  - exact (run_observers B evs (init d) w' eq_refl Hrun).
  - refine (run_calls_forall B _ _ evs (init d) w' (Forall_nil _) Hrun).
    intros w. eexists; split; [|unfold_adjust; cbn [rpc_calls]; reflexivity].
    cbn beta. rewrite !js_mul_two. eexists; eexists; reflexivity.
Qed.

Lemma autosize_js_trace_witness :
  exists w',
    run_script (load_script autosize_js) (init doc_spec_A)
      [Load; Notify 0; Relayout doc_neg_margin; Notify 0] = Some w' /\
    observers w' = [BodyNode] /\
    Forall (fun p => exists a b : Z, p = (of_long (2 * a), of_long (2 * b)))
           (rpc_calls w').
Proof.
  eexists; split; [reflexivity|].
  exact (autosize_js_trace doc_spec_A
           [Load; Notify 0; Relayout doc_neg_margin; Notify 0] _ eq_refl).
Defined.

(** X4: in every trace of either variant from the page before [load], no
    observer exists before [load] and exactly one afterwards, on the node
    that variant's [onload] observes. *)
Theorem single_observer (v : variant) (d : Document) (evs : list Event)
  (w' : World) (Hrun : run v (init d) evs = Some w') :
  observers w' = (if loaded w' then [observed_node v] else []).
Proof. exact (run_observers v evs (init d) w' eq_refl Hrun). Qed.

Lemma single_observer_witness :
  exists w',
    run A (init doc_spec_A) [Notify 0; Load] = None /\
    run A (init doc_spec_A) [Load; Notify 0; Notify 0] = Some w' /\
    observers w' = [DocumentElementNode].
Proof.
  eexists; split; [reflexivity|split; [reflexivity|]].
  exact (single_observer A doc_spec_A [Load; Notify 0; Notify 0] _ eq_refl).
Defined.

(** X5: Variant A's forwarded pair reads only the body's left and right
    margins and borders, its [scrollWidth] and the root element's
    bounding-rect height: pages that agree on these get the same pair. *)
Theorem variantA_reads (w1 w2 : World)
  (Hml : marginLeft (bodyStyle (document w1)) = marginLeft (bodyStyle (document w2)))
  (Hbl : borderLeft (bodyStyle (document w1)) = borderLeft (bodyStyle (document w2)))
  (Hbr : borderRight (bodyStyle (document w1)) = borderRight (bodyStyle (document w2)))
  (Hmr : marginRight (bodyStyle (document w1)) = marginRight (bodyStyle (document w2)))
  (Hsw : scrollWidth (body (document w1)) = scrollWidth (body (document w2)))
  (Hh : boundingRectHeight (documentElement (document w1)) =
        boundingRectHeight (documentElement (document w2))) :
  exists p, rpc_calls (exec VariantA._adjust w1) = rpc_calls w1 ++ [p] /\
            rpc_calls (exec VariantA._adjust w2) = rpc_calls w2 ++ [p].
Proof.
  unfold_adjust; cbn [rpc_calls].
  rewrite Hml, Hbl, Hbr, Hmr, Hsw, Hh.
  eexists; split; reflexivity.
Qed.

Lemma variantA_reads_witness :
  exists p, rpc_calls (exec VariantA._adjust (init doc_bad_top)) = [] ++ [p] /\
            rpc_calls (exec VariantA._adjust
              (init {| body := elem 300 320 50 (Fin (60 # 1));
                       documentElement := elem 640 640 480 (Fin (100 # 1));
                       bodyStyle := style_of "8px" "0px" "8px" "0px"
                         "1px solid rgb(0, 0, 0)" "0px none rgb(0, 0, 0)"
                         "1px solid rgb(0, 0, 0)" "0px none rgb(0, 0, 0)" |})) =
              [] ++ [p].
Proof.
  apply variantA_reads; reflexivity.
Defined.

(** X6: Variant B's forwarded pair reads only the root element's
    [offsetWidth] and [offsetHeight]: pages that agree on these get the
    same pair, whatever their body and computed style. *)
Theorem variantB_reads (w1 w2 : World)
  (Hw : offsetWidth (documentElement (document w1)) =
        offsetWidth (documentElement (document w2)))
  (Hh : offsetHeight (documentElement (document w1)) =
        offsetHeight (documentElement (document w2))) :
  exists p, rpc_calls (exec VariantB._adjust w1) = rpc_calls w1 ++ [p] /\
            rpc_calls (exec VariantB._adjust w2) = rpc_calls w2 ++ [p].
Proof.
  unfold_adjust; cbn [rpc_calls].
  rewrite Hw, Hh.
  eexists; split; reflexivity.
Qed.

Lemma variantB_reads_witness :
  exists p, rpc_calls (exec VariantB._adjust (init doc_spec_A)) = [] ++ [p] /\
            rpc_calls (exec VariantB._adjust
                         (init {| body := body doc_spec_B;
                                  documentElement := documentElement doc_spec_A;
                                  bodyStyle := bodyStyle doc_spec_B |})) = [] ++ [p].
Proof.
  apply variantB_reads; reflexivity.
Defined.
